(** * A shallow embedding of the react-vite-tailwind-shadcn starter

    The repository is a single page application template: a home page, an
    application shell that registers it with the router, a route
    configuration and the home route's metadata.  This file embeds the
    authored code (src/pages/Home.tsx, app/routes/home.tsx, app/routes.ts
    and the [App] shell), a small model of what the UI runtime and the router
    do with it, and states the properties of the specification about them. *)

From Stdlib Require Import Ascii String List Bool Arith Lia.
Import ListNotations.
Local Open Scope string_scope.

(** ** Outcomes and the effect monad

    Authored functions run against a world [W], the observable state of the
    application.  A call returns a value or throws, and hands back the world
    it leaves behind.  [OutOfFuel] is produced by the renderer only. *)

Inductive Outcome (A : Type) : Type :=
| Returned (a : A)
| Thrown (msg : string)
| OutOfFuel.

Arguments Returned {A} a.
Arguments Thrown {A} msg.
Arguments OutOfFuel {A}.

Definition Eff (W A : Type) : Type := W -> Outcome A * W.

Definition ret {W A} (a : A) : Eff W A := fun w => (Returned a, w).

Definition throw {W A} (msg : string) : Eff W A := fun w => (Thrown msg, w).

Definition bind {W A B} (m : Eff W A) (k : A -> Eff W B) : Eff W B :=
  fun w =>
    match m w with
    | (Returned a, w') => k a w'
    | (Thrown msg, w') => (Thrown msg, w')
    | (OutOfFuel, w') => (OutOfFuel, w')
    end.

Notation "x <- m ;; k" := (bind m (fun x => k))
  (at level 61, m at next level, right associativity).

Fixpoint mapM {W A B} (f : A -> Eff W B) (l : list A) : Eff W (list B) :=
  match l with
  | [] => ret []
  | a :: l' => b <- f a ;; bs <- mapM f l' ;; ret (b :: bs)
  end.

(** [returns m a]: in every world, [m] returns [a] and leaves the world as
    it found it. *)
Definition returns {W A} (m : Eff W A) (a : A) : Prop :=
  forall w, m w = (Returned a, w).

(** ** Elements

    A JSX expression denotes an element: a text child, or a type (a host tag
    or a component) with props and children.  The props record lists the
    props that occur in this code base: [className], [path] and [element],
    and [onClick], the prop through which a click handler is attached. *)

Module Id.
(** The components that element types refer to. *)
Inductive t : Type :=
| BrowserRouter | Routes | Route   (* from "react-router" *)
| Button                           (* components/ui/button *)
| App                              (* the application shell *)
| PagesHome                        (* src/pages/Home.tsx *)
| RoutesHome.                      (* app/routes/home.tsx *)

Definition eqb (a b : t) : bool :=
  match a, b with
  | BrowserRouter, BrowserRouter | Routes, Routes | Route, Route
  | Button, Button | App, App | PagesHome, PagesHome
  | RoutesHome, RoutesHome => true
  | _, _ => false
  end.

(** The page components: the default exports of the page modules. *)
Definition is_page (c : t) : bool :=
  match c with
  | PagesHome | RoutesHome => true
  | _ => false
  end.
End Id.

Inductive ElementType : Type :=
| Tag (name : string)
| Component (c : Id.t).

Record Props (W E : Type) : Type := mkProps {
  className : option string;
  onClick : option (W -> W);
  path : option string;
  element : option E
}.

Arguments mkProps {W E}.
Arguments className {W E}.
Arguments onClick {W E}.
Arguments path {W E}.
Arguments element {W E}.

Local Unset Elimination Schemes.

Inductive Element (W : Type) : Type :=
| Text (s : string)
| Elem (type : ElementType) (props : Props W (Element W))
       (children : list (Element W)).

Local Set Elimination Schemes.

Arguments Text {W} s.
Arguments Elem {W} type props children.

(** [<x>]: no props. *)
Definition noProps {W} : Props W (Element W) := mkProps None None None None.

(** [<x className="c">]. *)
Definition classProps {W} (c : string) : Props W (Element W) :=
  mkProps (Some c) None None None.

(** [<Route path="p" element={e} />]. *)
Definition routeProps {W} (p : string) (e : Element W) : Props W (Element W) :=
  mkProps None None (Some p) (Some e).

(** ** src/pages/Home.tsx *)

Module Pages.
Definition Home {W} : Eff W (Element W) :=
  ret
    (Elem (Tag "div") (classProps "min-h-screen bg-background")
       [Elem (Tag "main") (classProps "pt-16 p-4 container mx-auto")
          [Elem (Tag "h1") (classProps "text-4xl font-bold mb-4")
             [Text "My Easel App"];
           Elem (Tag "p") (classProps "text-muted-foreground mb-6")
             [Text "Replace this with your own content."];
           Elem (Component Id.Button) noProps [Text "Click me"]]]).
End Pages.

(** ** app/routes/home.tsx *)

Module RouteHome.
(** A meta descriptor is an object literal: its keys with their values,
    in the order they are written. *)
Definition MetaDescriptor : Type := list (string * string).

Definition meta {W MetaArgs} (_ : MetaArgs) : Eff W (list MetaDescriptor) :=
  ret
    [ [("title", "My Easel App")];
      [("name", "description"); ("content", "Welcome to My Easel App!")] ].

Definition Home {W} : Eff W (Element W) :=
  ret
    (Elem (Tag "div") noProps
       [Text "Replace this with your own content.";
        Elem (Component Id.Button) noProps [Text "Click me"]]).
End RouteHome.

(** ** The application shell *)

Definition App {W} : Eff W (Element W) :=
  ret
    (Elem (Component Id.BrowserRouter) noProps
       [Elem (Component Id.Routes) noProps
          [Elem (Component Id.Route)
             (routeProps "/" (Elem (Component Id.PagesHome) noProps []))
             []]]).


(** ** Paths

    Operations on path strings that the route configuration and the router
    share. *)

(** [s.split("/")]: the pieces of [s] between its slashes. *)
Fixpoint splitSlash (s : string) : list string :=
  match s with
  | EmptyString => [EmptyString]
  | String c s' =>
      match splitSlash s' with
      | piece :: rest =>
          if Ascii.eqb c "/" then EmptyString :: piece :: rest
          else String c piece :: rest
      | [] => []
      end
  end.

(** [s.replace(/\/\/+/g, "/")]: every run of slashes becomes one slash. *)
Fixpoint collapseSlashes (s : string) : string :=
  match s with
  | EmptyString => EmptyString
  | String c s' =>
      match s' with
      | String c' _ =>
          if Ascii.eqb c "/" && Ascii.eqb c' "/" then collapseSlashes s'
          else String c (collapseSlashes s')
      | EmptyString => String c EmptyString
      end
  end.

Fixpoint forallChars (f : ascii -> bool) (s : string) : bool :=
  match s with
  | EmptyString => true
  | String c s' => f c && forallChars f s'
  end.

(** A path made of slashes only: [/], [//], ... (and the empty path). *)
Definition onlySlashes (s : string) : bool := forallChars (Ascii.eqb "/") s.

Definition startsWithSlash (s : string) : bool :=
  match s with
  | String c _ => Ascii.eqb c "/"
  | EmptyString => false
  end.

(** Letters are compared without regard to case. *)
Definition lower (a : ascii) : ascii :=
  let n := nat_of_ascii a in
  if ((65 <=? n) && (n <=? 90))%nat then ascii_of_nat (n + 32) else a.

Fixpoint lowerCase (s : string) : string :=
  match s with
  | EmptyString => EmptyString
  | String a s' => String (lower a) (lowerCase s')
  end.

Definition sameIgnoringCase (s x : string) : bool :=
  String.eqb (lowerCase s) (lowerCase x).

(** ** app/routes.ts

    The route configuration is built with the helpers of
    "@react-router/dev/routes".  An entry names the module file of a route;
    [index file] is the helper's object literal [{ file, index: true }]. *)

Module RouteConfig.
Local Unset Elimination Schemes.

Inductive RouteConfigEntry : Type :=
| mkEntry (file : string) (index : bool) (path : option string)
          (children : list RouteConfigEntry).

Local Set Elimination Schemes.

Definition index (file : string) : RouteConfigEntry :=
  mkEntry file true None [].

(** [export default [ index("./routes/home.tsx") ]]: the commented-out
    examples of the source file are not part of the array. *)
Definition routes {W} : Eff W (list RouteConfigEntry) :=
  ret [index "./routes/home.tsx"].

(** The default export of a route module, for the module files of this
    repository. *)
Definition default_export (file : string) : option Id.t :=
  if String.eqb file "./routes/home.tsx" then Some Id.RoutesHome else None.

(** Modelled from the spec: the framework that turns the configuration into
    URL paths is not part of the sources, and the specification says only
    that the table associates URL path patterns with components; this
    definition and the three after it follow what the framework does.  A
    route path relative to its parent: a path written with a leading slash
    repeats the parent's path, which is cut off. *)
Definition relativeTo (parent seg : string) : string :=
  if startsWithSlash seg && String.prefix parent seg
  then String.substring (String.length parent)
         (String.length seg - String.length parent) seg
  else seg.

(** Modelled from the spec: the path of a route is its parent's path and
    its own joined by a slash, runs of slashes collapsed.  A path with a
    leading slash that does not repeat its parent's path, which the framework
    refuses, is joined like a relative one. *)
Definition joinPaths (parent seg : string) : string :=
  collapseSlashes (parent ++ "/" ++ relativeTo parent seg).

(** Modelled from the spec: an entry's own path counts whether or not it is
    an index route; an index route without a path sits at its parent's path,
    and a route with neither hands its parent's path on to its children. *)
Definition fullPath (parent : string) (index : bool) (path : option string)
  : string :=
  match path with
  | Some seg => joinPaths parent seg
  | None => if index then joinPaths parent EmptyString else parent
  end.

(** Modelled from the spec: the path to module associations of a
    configuration, the routes of the array being children of a root route at
    [/]: one for every index route and every route with a path (a route with
    neither only wraps its children). *)
Fixpoint flattenEntry (parent : string) (e : RouteConfigEntry)
  : list (string * string) :=
  match e with
  | mkEntry file index path children =>
      let full := fullPath parent index path in
      let own :=
        match index, path with
        | false, None => []
        | _, _ => [(full, file)]
        end in
      own ++ flat_map (flattenEntry full) children
  end.

Definition flattenRoutes (config : list RouteConfigEntry)
  : list (string * string) :=
  flat_map (flattenEntry "/") config.

(** The path to component table of a configuration: every module file
    replaced by its default export. *)
Fixpoint linkRoutes (t : list (string * string))
  : option (list (string * Id.t)) :=
  match t with
  | [] => Some []
  | (p, file) :: t' =>
      match default_export file, linkRoutes t' with
      | Some c, Some r => Some ((p, c) :: r)
      | _, _ => None
      end
  end.
End RouteConfig.

(** ** The router

    Modelled from the spec: "react-router" is not part of the sources.  The
    specification says that the router matches the registered path and calls
    the keys of the route table URL path patterns; what a pattern matches is
    taken from the router's behaviour, for the patterns that the sources and
    the guide use: static segments and dynamic [:name] segments.

    - A pattern matches a pathname that starts with a slash and whose pieces,
      the trailing slashes left aside, are as many as its segments and match
      them one by one: a static segment matches the same text in any letter
      case, a dynamic segment any piece that is not empty.
    - The routes are tried from the highest score down, a static segment
      counting more than a dynamic one; among equal scores the earlier route
      comes first.
    - The pathname is taken as the router sees it, percent-decoded; an empty
      pathname stands for [/].

    Patterns outside this fragment (a splat [*], optional segments, other
    characters, repeated or trailing slashes) are not modelled: they take no
    part in the matching, and no property below is stated about them. *)

Inductive Segment : Type :=
| Static (text : string)
| Dynamic (name : string).

(** [\w]: a letter, a digit or the underscore. *)
Definition isWordChar (a : ascii) : bool :=
  let n := nat_of_ascii a in
  (((48 <=? n) && (n <=? 57)) || ((65 <=? n) && (n <=? 90))
   || ((97 <=? n) && (n <=? 122)) || (n =? 95))%nat.

Definition isNameChar (a : ascii) : bool := isWordChar a || Ascii.eqb a "-".

Definition isStaticChar (a : ascii) : bool :=
  isWordChar a || Ascii.eqb a "-" || Ascii.eqb a ".".

Definition parseSegment (s : string) : option Segment :=
  match s with
  | EmptyString => None
  | String c name =>
      if Ascii.eqb c ":" then
        match name with
        | EmptyString => None
        | String _ _ =>
            if forallChars isNameChar name then Some (Dynamic name) else None
        end
      else if forallChars isStaticChar s then Some (Static s) else None
  end.

Fixpoint parseSegments (pieces : list string) : option (list Segment) :=
  match pieces with
  | [] => Some []
  | x :: rest =>
      match parseSegment x, parseSegments rest with
      | Some g, Some gs => Some (g :: gs)
      | _, _ => None
      end
  end.

Definition stripLeadingSlash (p : string) : string :=
  match p with
  | String c rest => if Ascii.eqb c "/" then rest else p
  | EmptyString => EmptyString
  end.

(** The segments of a pattern of the fragment: [/] has none. *)
Definition parsePattern (p : string) : option (list Segment) :=
  if String.eqb p "/" then Some []
  else parseSegments (splitSlash (stripLeadingSlash p)).

Definition supported (p : string) : bool :=
  match parsePattern p with
  | Some _ => true
  | None => false
  end.

Definition matchSegment (g : Segment) (piece : string) : bool :=
  match g with
  | Static text => sameIgnoringCase text piece
  | Dynamic _ => negb (String.eqb piece EmptyString)
  end.

Fixpoint matchSegments (pat : list Segment) (pieces : list string) : bool :=
  match pat, pieces with
  | [], [] => true
  | g :: pat', x :: pieces' => matchSegment g x && matchSegments pat' pieces'
  | _, _ => false
  end.

(** The pieces of a pathname without the empty ones that its trailing
    slashes leave at the end. *)
Definition dropTrailingEmpty (pieces : list string) : list string :=
  fold_right
    (fun x acc =>
       match acc with
       | [] => if String.eqb x EmptyString then [] else [x]
       | _ :: _ => x :: acc
       end)
    [] pieces.

Definition matchPattern (pat : list Segment) (pathname : string) : bool :=
  match pathname with
  | String c rest =>
      Ascii.eqb c "/" && matchSegments pat (dropTrailingEmpty (splitSlash rest))
  | EmptyString => false
  end.

(** Modelled from the spec: whether the pattern [pattern] matches the
    pathname [pathname], as described at the head of this section. *)
Definition matchPath (pattern pathname : string) : bool :=
  match parsePattern pattern with
  | Some pat => matchPattern pat pathname
  | None => false
  end.

Definition segmentValue (g : Segment) : nat :=
  match g with
  | Static _ => 10
  | Dynamic _ => 3
  end.

(** The score of a route: the number of pieces of its path, one for each
    empty piece, ten for each static and three for each dynamic segment.
    The path [/] has two empty pieces, every other path of the fragment one
    empty piece before its segments. *)
Definition computeScore (pat : list Segment) : nat :=
  match pat with
  | [] => 2 + 1 + 1
  | _ :: _ => S (length pat) + 1 + list_sum (map segmentValue pat)
  end.

Record Branch (C : Type) : Type := mkBranch {
  segments : list Segment;
  score : nat;
  position : nat;
  target : C
}.

Arguments mkBranch {C}.
Arguments segments {C}.
Arguments score {C}.
Arguments position {C}.
Arguments target {C}.

(** The branches of a route table, each with its position in the table,
    counted from [i]. *)
Fixpoint branchesFrom {C} (i : nat) (t : list (string * C))
  : list (Branch C) :=
  match t with
  | [] => []
  | (p, c) :: t' =>
      match parsePattern p with
      | Some pat => [mkBranch pat (computeScore pat) i c]
      | None => []
      end ++ branchesFrom (S i) t'
  end.

(** [b], which stood before every branch of [l], put in its place by
    score. *)
Fixpoint insertBranch {C} (b : Branch C) (l : list (Branch C))
  : list (Branch C) :=
  match l with
  | [] => [b]
  | x :: l' =>
      if (score b <? score x)%nat then x :: insertBranch b l' else b :: x :: l'
  end.

(** The branches from the highest score down, the earlier first among
    equal scores. *)
Definition rankRouteBranches {C} (l : list (Branch C)) : list (Branch C) :=
  fold_right insertBranch [] l.

(** Rank order: no branch has a lower score than a branch after it. *)
Fixpoint ranked {C} (l : list (Branch C)) : Prop :=
  match l with
  | [] => True
  | x :: l' => Forall (fun y => score y <= score x) l' /\ ranked l'
  end.

(** [location.pathname || "/"]. *)
Definition pathnameOf (loc : string) : string :=
  if String.eqb loc EmptyString then "/" else loc.

(** Modelled from the spec: the first branch, in rank order, that matches
    the location: its position in the table and its target. *)
Definition matchRoutes {C} (t : list (string * C)) (loc : string)
  : option (nat * C) :=
  match find (fun b => matchPattern (segments b) (pathnameOf loc))
             (rankRouteBranches (branchesFrom 0 t)) with
  | Some b => Some (position b, target b)
  | None => None
  end.

Definition resolve {C} (t : list (string * C)) (loc : string) : option C :=
  option_map snd (matchRoutes t loc).

(** Modelled from the spec: the route table of a [<Routes>] element, one
    entry per [<Route>] child that carries a path and an element, the form
    the application shell uses.
    The other forms that the router accepts (a route without an element, an
    index route, nested routes, fragments) are not modelled. *)
Fixpoint createRoutesFromChildren {W} (children : list (Element W))
  : option (list (string * Element W)) :=
  match children with
  | [] => Some []
  | Elem (Component Id.Route) (mkProps _ _ (Some p) (Some e)) _ :: rest =>
      option_map (cons (p, e)) (createRoutesFromChildren rest)
  | _ :: _ => None
  end.

(** ** The button of the UI kit

    Modelled from the spec: components/ui/button.tsx is not part of the
    sources.  The specification describes it as a reusable, interactive
    button of a UI kit whose own state is styling only: it renders one
    [button] host element and hands the props and children it was given on to
    it. *)

Definition Button {W} (props : Props W (Element W))
  (children : list (Element W)) : Eff W (Element W) :=
  ret (Elem (Tag "button") props children).

(** ** Rendering

    The UI runtime calls the function of every component element and renders
    what it returns; the mounted tree records each component instance with
    its output.  [loc] is the path of the browser's location. *)

Definition invoke {W} (c : Id.t) (props : Props W (Element W))
  (children : list (Element W)) (loc : string) : Eff W (list (Element W)) :=
  match c with
  | Id.App => e <- App ;; ret [e]
  | Id.PagesHome => e <- Pages.Home ;; ret [e]
  | Id.RoutesHome => e <- RouteHome.Home ;; ret [e]
  | Id.Button => e <- Button props children ;; ret [e]
  | Id.BrowserRouter => ret children
  | Id.Routes =>
      match createRoutesFromChildren children with
      | Some table =>
          match resolve table loc with
          | Some e => ret [e]
          | None => ret []
          end
      | None => throw "children of <Routes> in a form that is not modelled"
      end
  | Id.Route => throw "a <Route> is only to be used as the child of <Routes>"
  end.

Local Unset Elimination Schemes.

Inductive Mounted (W : Type) : Type :=
| MText (s : string)
| MHost (tag : string) (className : option string) (onClick : option (W -> W))
        (children : list (Mounted W))
| MComp (c : Id.t) (output : list (Mounted W)).

(** The document the browser shows: host elements and text only. *)
Inductive Dom (W : Type) : Type :=
| DText (s : string)
| DElem (tag : string) (className : option string) (onClick : option (W -> W))
        (children : list (Dom W)).

Local Set Elimination Schemes.

Arguments MText {W} s.
Arguments MHost {W} tag className onClick children.
Arguments MComp {W} c output.
Arguments DText {W} s.
Arguments DElem {W} tag className onClick children.

Fixpoint render {W} (fuel : nat) (loc : string) (e : Element W)
  : Eff W (Mounted W) :=
  match fuel with
  | 0 => fun w => (OutOfFuel, w)
  | S n =>
      match e with
      | Text s => ret (MText s)
      | Elem (Tag t) props children =>
          ms <- mapM (render n loc) children ;;
          ret (MHost t (className props) (onClick props) ms)
      | Elem (Component c) props children =>
          out <- invoke c props children loc ;;
          ms <- mapM (render n loc) out ;;
          ret (MComp c ms)
      end
  end.

(** [<App />], what the entry point hands to the runtime. *)
Definition root {W} : Element W := Elem (Component Id.App) noProps [].

(** ** Observations on mounted trees *)

(** The component instances of a mounted tree, parents before children. *)
Fixpoint instances {W} (m : Mounted W) : list Id.t :=
  match m with
  | MText _ => []
  | MHost _ _ _ children => flat_map instances children
  | MComp c output => c :: flat_map instances output
  end.

Definition pages {W} (m : Mounted W) : list Id.t :=
  filter Id.is_page (instances m).

(** The output of every instance of component [c]. *)
Fixpoint outputsOf {W} (c : Id.t) (m : Mounted W) : list (list (Mounted W)) :=
  match m with
  | MText _ => []
  | MHost _ _ _ children => flat_map (outputsOf c) children
  | MComp c' output =>
      (if Id.eqb c c' then [output] else []) ++ flat_map (outputsOf c) output
  end.

Fixpoint toDom {W} (m : Mounted W) : list (Dom W) :=
  match m with
  | MText s => [DText s]
  | MHost t cl h children => [DElem t cl h (flat_map toDom children)]
  | MComp _ output => flat_map toDom output
  end.

(** ** Click events

    A node of the document is addressed by the positions of its ancestors
    and itself.  A click on a node runs the click handlers of the node and
    of its ancestors, the innermost first. *)

Definition handlerOf {W} (h : option (W -> W)) : list (W -> W) :=
  match h with Some f => [f] | None => [] end.

(** The handlers on the way to [target], the outermost first. *)
Fixpoint handlersTo {W} (forest : list (Dom W)) (target : list nat)
  : list (W -> W) :=
  match target with
  | [] => []
  | i :: rest =>
      match nth_error forest i with
      | Some (DElem _ _ h children) => handlerOf h ++ handlersTo children rest
      | Some (DText _) => []
      | None => []
      end
  end.

Definition click {W} (forest : list (Dom W)) (target : list nat) (w : W) : W :=
  fold_right (fun h w' => h w') w (handlersTo forest target).

Fixpoint nodeAt {W} (forest : list (Dom W)) (target : list nat)
  : option (Dom W) :=
  match target with
  | [] => None
  | i :: rest =>
      match nth_error forest i, rest with
      | Some d, [] => Some d
      | Some (DElem _ _ _ children), _ => nodeAt children rest
      | _, _ => None
      end
  end.

(** Every handler attached anywhere in a document. *)
Fixpoint allHandlers {W} (d : Dom W) : list (W -> W) :=
  match d with
  | DText _ => []
  | DElem _ _ h children => handlerOf h ++ flat_map allHandlers children
  end.

(** ** Observations on markup *)

(** An element with everything below it: its [element] prop and its
    children. *)
Fixpoint subelements {W} (e : Element W) : list (Element W) :=
  e ::
  match e with
  | Text _ => []
  | Elem _ props children =>
      match element props with
      | Some x => subelements x
      | None => []
      end ++ flat_map subelements children
  end.

Definition isHeadingTag (t : string) : bool :=
  existsb (String.eqb t) ["h1"; "h2"; "h3"; "h4"; "h5"; "h6"].

Definition isHeading {W} (e : Element W) : bool :=
  match e with
  | Elem (Tag t) _ _ => isHeadingTag t
  | _ => false
  end.

Definition headings {W} (e : Element W) : list (Element W) :=
  filter isHeading (subelements e).

(** The text of an element: the text children below it, concatenated. *)
Fixpoint textContent {W} (e : Element W) : string :=
  match e with
  | Text s => s
  | Elem _ _ children => String.concat EmptyString (map textContent children)
  end.

(** The literal texts of a piece of markup. *)
Definition texts {W} (e : Element W) : list string :=
  flat_map (fun x => match x with Text s => [s] | Elem _ _ _ => [] end)
           (subelements e).

(** A button in markup: the UI kit's [Button] or a [button] host element. *)
Definition isButtonType (ty : ElementType) : bool :=
  match ty with
  | Component Id.Button => true
  | Component _ => false
  | Tag t => String.eqb t "button"
  end.

(** The buttons of a piece of markup, as props and children. *)
Definition buttons {W} (e : Element W)
  : list (Props W (Element W) * list (Element W)) :=
  flat_map (fun x => match x with
                     | Elem ty props children =>
                         if isButtonType ty then [(props, children)] else []
                     | Text _ => []
                     end)
           (subelements e).

(** The value of key [k] in a meta descriptor. *)
Fixpoint field (k : string) (d : RouteHome.MetaDescriptor) : option string :=
  match d with
  | [] => None
  | (k', v) :: d' => if String.eqb k k' then Some v else field k d'
  end.

(** The page title a list of meta descriptors declares. *)
Fixpoint titleOf (ds : list RouteHome.MetaDescriptor) : option string :=
  match ds with
  | [] => None
  | d :: ds' =>
      match field "title" d with
      | Some v => Some v
      | None => titleOf ds'
      end
  end.

Definition isRoutes {W} (e : Element W) : bool :=
  match e with
  | Elem (Component Id.Routes) _ _ => true
  | _ => false
  end.

(** The route table a piece of markup declares: that of its first
    [<Routes>] element. *)
Definition declaredRoutes {W} (e : Element W)
  : option (list (string * Element W)) :=
  match filter isRoutes (subelements e) with
  | Elem _ _ children :: _ => createRoutesFromChildren children
  | _ => None
  end.

(** [<Home />] for the home page of src/pages/Home.tsx. *)
Definition pagesHome {W} : Element W := Elem (Component Id.PagesHome) noProps [].

(** [<Home />] for the home page of app/routes/home.tsx. *)
Definition routeHome {W} : Element W := Elem (Component Id.RoutesHome) noProps [].

(** What the specification says of the markup of a home page component: a
    heading, the placeholder text, and exactly one button, labelled
    "Click me". *)
Definition homeMarkup {W} (Home : Eff W (Element W)) : Prop :=
  exists e,
    returns Home e /\
    headings e <> [] /\
    In "Replace this with your own content." (texts e) /\
    exists props, buttons e = [(props, [Text "Click me"])].

(** ** The guide's examples

    The application structure guide shows how the template is extended: a
    route is registered by adding [route(path, file)] to the array of
    app/routes.ts, and a route with a parameter reads it from [params]. *)

Module Guide.
(** [route(path, file)], the helper's object literal [{ file, path }]. *)
Definition route (path file : string) : RouteConfig.RouteConfigEntry :=
  RouteConfig.mkEntry file false (Some path) [].

(** The parameters of the route of the guide's user page. *)
Record Params : Type := mkParams { id : string }.

(** [meta({ params })] of the user page: the title is the template literal
    [`User ${params.id} - My App`]. *)
Definition meta {W} (params : Params)
  : Eff W (list RouteHome.MetaDescriptor) :=
  ret [ [("title", "User " ++ id params ++ " - My App")] ].

(** [User({ params })]: [<div>User ID: {params.id}</div>]. *)
Definition User {W} (params : Params) : Eff W (Element W) :=
  ret (Elem (Tag "div") noProps [Text "User ID: "; Text (id params)]).
End Guide.

(** * Properties *)

(** ** The effect monad *)

Lemma returns_ret {W A} (a : A) : returns (@ret W A a) a.
Proof. intro w. reflexivity. Qed.

Lemma returns_bind {W A B} (m : Eff W A) (k : A -> Eff W B) a b :
  returns m a -> returns (k a) b -> returns (x <- m ;; k x) b.
Proof.
  intros Hm Hk w. unfold bind. rewrite Hm. apply Hk.
Qed.

(** ** The router *)

(** *** Paths *)

Lemma splitSlash_cons (s : string) : exists piece rest, splitSlash s = piece :: rest.
Proof.
  induction s as [|c s (piece & rest & IH)]; simpl.
  - now exists EmptyString, [].
  - rewrite IH. destruct (Ascii.eqb c "/"); eauto.
Qed.

Lemma dropTrailingEmpty_cons (x : string) (l : list string) :
  dropTrailingEmpty (x :: l) =
  match dropTrailingEmpty l with
  | [] => if String.eqb x EmptyString then [] else [x]
  | y :: acc => x :: y :: acc
  end.
Proof.
  unfold dropTrailingEmpty. simpl.
  destruct (fold_right _ _ l); reflexivity.
Qed.

(** Only slashes leave no piece behind. *)
Lemma no_pieces_onlySlashes (s : string) :
  matchSegments [] (dropTrailingEmpty (splitSlash s)) = onlySlashes s.
Proof.
  induction s as [|c s IH]; [reflexivity|].
  change (onlySlashes (String c s))
    with (Ascii.eqb "/" c && onlySlashes s).
  change (splitSlash (String c s))
    with (match splitSlash s with
          | piece :: rest =>
              if Ascii.eqb c "/" then EmptyString :: piece :: rest
              else String c piece :: rest
          | [] => []
          end).
  destruct (splitSlash_cons s) as (piece & rest & E).
  rewrite E in *. rewrite (Ascii.eqb_sym "/" c).
  destruct (Ascii.eqb c "/"); rewrite dropTrailingEmpty_cons.
  - destruct (dropTrailingEmpty (piece :: rest)); simpl in *; exact IH.
  - destruct (dropTrailingEmpty rest); reflexivity.
Qed.

(** The pattern [/] matches exactly the locations made of slashes. *)
Lemma matchPattern_root (loc : string) :
  matchPattern [] (pathnameOf loc) = onlySlashes loc.
Proof.
  destruct loc as [|c rest]; [reflexivity|].
  change (pathnameOf (String c rest)) with (String c rest).
  change (onlySlashes (String c rest))
    with (Ascii.eqb "/" c && onlySlashes rest).
  unfold matchPattern. rewrite no_pieces_onlySlashes.
  now rewrite (Ascii.eqb_sym "/" c).
Qed.

Lemma matchPath_root (loc : string) :
  matchPath "/" (pathnameOf loc) = onlySlashes loc.
Proof. apply matchPattern_root. Qed.

Lemma sameIgnoringCase_refl (s : string) : sameIgnoringCase s s = true.
Proof. apply String.eqb_refl. Qed.

Lemma parseSegment_matches (x : string) (g : Segment) :
  parseSegment x = Some g -> x <> EmptyString /\ matchSegment g x = true.
Proof.
  destruct x as [|c name]; [discriminate|]. simpl.
  destruct (Ascii.eqb c ":").
  - destruct name as [|d name]; [discriminate|].
    destruct (forallChars isNameChar (String d name)); [|discriminate].
    intros [= <-]. split; [discriminate|reflexivity].
  - destruct (isStaticChar c && forallChars isStaticChar name); [|discriminate].
    intros [= <-]. split; [discriminate|]. apply sameIgnoringCase_refl.
Qed.

Lemma parseSegments_match (pieces : list string) : forall pat,
  parseSegments pieces = Some pat ->
  dropTrailingEmpty pieces = pieces /\ matchSegments pat pieces = true.
Proof.
  induction pieces as [|x pieces IH]; intros pat H; simpl in H.
  - injection H as <-. split; reflexivity.
  - destruct (parseSegment x) as [g|] eqn:Eg; [|discriminate].
    destruct (parseSegments pieces) as [gs|]; [|discriminate].
    injection H as <-. destruct (IH gs eq_refl) as [Hd Hm].
    apply parseSegment_matches in Eg. destruct Eg as [Hx Hg].
    split.
    + rewrite dropTrailingEmpty_cons, Hd.
      destruct pieces; [|reflexivity].
      destruct (String.eqb_spec x EmptyString); [contradiction|reflexivity].
    + simpl. now rewrite Hg, Hm.
Qed.

(** A pattern of the fragment that starts with a slash matches itself. *)
Lemma matchPath_self (p : string) :
  supported p = true -> startsWithSlash p = true ->
  matchPath p (pathnameOf p) = true.
Proof.
  unfold supported, matchPath, parsePattern.
  destruct (String.eqb_spec p "/") as [->|Hp]; [reflexivity|].
  destruct p as [|c body]; [discriminate|]. simpl.
  intros Hs Hc. rewrite Hc in *.
  destruct (parseSegments (splitSlash body)) as [pat|] eqn:E; [|discriminate].
  apply parseSegments_match in E. destruct E as [Hd Hm].
  unfold pathnameOf. simpl. now rewrite Hd, Hm.
Qed.

(** *** Rank order *)

Lemma Forall_insertBranch {C} (P : Branch C -> Prop) b l :
  P b -> Forall P l -> Forall P (insertBranch b l).
Proof.
  intros Hb Hl. induction Hl as [|x l Hx Hl IH]; simpl.
  - now constructor.
  - destruct (score b <? score x)%nat; repeat constructor; assumption.
Qed.

Lemma Forall_rank {C} (P : Branch C -> Prop) l :
  Forall P l -> Forall P (rankRouteBranches l).
Proof.
  induction 1 as [|x l Hx Hl IH]; simpl; [constructor|].
  now apply Forall_insertBranch.
Qed.

Lemma ranked_insertBranch {C} (b : Branch C) l :
  ranked l -> ranked (insertBranch b l).
Proof.
  induction l as [|x l IH]; simpl.
  - intros _. split; [constructor|exact I].
  - intros [Hx Hl]. destruct (Nat.ltb_spec (score b) (score x)); simpl.
    + split; [|now apply IH].
      apply Forall_insertBranch; [lia|exact Hx].
    + split; [|split; assumption].
      constructor; [exact H|].
      eapply Forall_impl; [|exact Hx]. simpl. intros y Hy. lia.
Qed.

Lemma ranked_rank {C} (l : list (Branch C)) : ranked (rankRouteBranches l).
Proof.
  induction l as [|x l IH]; simpl; [exact I|].
  now apply ranked_insertBranch.
Qed.

Lemma insertBranch_front {C} (b : Branch C) l :
  Forall (fun y => score y <= score b) l -> insertBranch b l = b :: l.
Proof.
  destruct 1 as [|x l Hx Hl]; simpl; [reflexivity|].
  destruct (Nat.ltb_spec (score b) (score x)); [lia|reflexivity].
Qed.

Lemma Forall_filter {A} (P : A -> Prop) (f : A -> bool) l :
  Forall P l -> Forall P (filter f l).
Proof.
  induction 1 as [|x l Hx Hl IH]; simpl; [constructor|].
  destruct (f x); [now constructor|assumption].
Qed.

(** Leaving branches out and ranking can be done in either order. *)
Lemma filter_insertBranch {C} (f : Branch C -> bool) b l :
  ranked l ->
  filter f (insertBranch b l) =
  if f b then insertBranch b (filter f l) else filter f l.
Proof.
  induction l as [|x l IH]; simpl.
  - intros _. destruct (f b); reflexivity.
  - intros [Hx Hl]. destruct (Nat.ltb_spec (score b) (score x)) as [Hlt|Hge].
    + simpl. rewrite (IH Hl). destruct (f b), (f x); simpl; try reflexivity.
      destruct (Nat.ltb_spec (score b) (score x)); [reflexivity|lia].
    + simpl. destruct (f b); [|reflexivity].
      symmetry. apply insertBranch_front.
      assert (Hall : Forall (fun y => score y <= score b) (x :: l)).
      { constructor; [exact Hge|].
        eapply Forall_impl; [|exact Hx]. simpl. intros y Hy. lia. }
      apply (Forall_filter _ f) in Hall. exact Hall.
Qed.

Lemma filter_rank {C} (f : Branch C -> bool) l :
  filter f (rankRouteBranches l) = rankRouteBranches (filter f l).
Proof.
  induction l as [|x l IH]; simpl; [reflexivity|].
  rewrite filter_insertBranch by apply ranked_rank.
  rewrite IH. destruct (f x); reflexivity.
Qed.

Lemma find_filter {A} (f : A -> bool) l : find f l = hd_error (filter f l).
Proof.
  induction l as [|x l IH]; simpl; [reflexivity|].
  destruct (f x); [reflexivity|exact IH].
Qed.

Lemma find_rank {C} (f : Branch C -> bool) l :
  find f (rankRouteBranches l) = hd_error (rankRouteBranches (filter f l)).
Proof. now rewrite find_filter, filter_rank. Qed.

(** *** Route tables *)

Lemma branchesFrom_app {C} (t u : list (string * C)) : forall i,
  branchesFrom i (t ++ u)
  = (branchesFrom i t ++ branchesFrom (i + length t) u)%list.
Proof.
  induction t as [|[p c] t IH]; intro i; simpl.
  - now rewrite Nat.add_0_r.
  - rewrite IH, Nat.add_succ_r, app_assoc. reflexivity.
Qed.

Lemma branchesFrom_position {C} (t : list (string * C)) : forall i,
  Forall (fun b => i <= position b < i + length t) (branchesFrom i t).
Proof.
  induction t as [|[p c] t IH]; intro i; simpl; [constructor|].
  apply Forall_app. split.
  - destruct (parsePattern p); repeat constructor; simpl; lia.
  - eapply Forall_impl; [|apply (IH (S i))]. simpl. intros b Hb. lia.
Qed.

Lemma matchRoutes_bound {C} (t : list (string * C)) loc j c :
  matchRoutes t loc = Some (j, c) -> j < length t.
Proof.
  unfold matchRoutes.
  destruct (find _ _) as [b|] eqn:E; [|discriminate].
  intros [= <- _]. apply find_some in E. destruct E as [Hin _].
  pose proof (Forall_rank _ _ (branchesFrom_position t 0)) as H.
  rewrite Forall_forall in H. apply H in Hin. lia.
Qed.

Lemma resolve_None {C} (t : list (string * C)) loc :
  resolve t loc = None <-> matchRoutes t loc = None.
Proof.
  unfold resolve. destruct (matchRoutes t loc) as [[j c]|]; simpl; split;
    congruence.
Qed.

Lemma rank_nil {C} (l : list (Branch C)) : rankRouteBranches l = [] -> l = [].
Proof.
  destruct l as [|x l]; [reflexivity|]. simpl.
  destruct (rankRouteBranches l) as [|y r]; simpl; [discriminate|].
  destruct (score x <? score y)%nat; discriminate.
Qed.

(** The branches of a table that match a location, in table order. *)
Lemma matchRoutes_None {C} (t : list (string * C)) loc :
  matchRoutes t loc = None <->
  filter (fun b => matchPattern (segments b) (pathnameOf loc))
         (branchesFrom 0 t) = [].
Proof.
  unfold matchRoutes. rewrite find_rank.
  destruct (filter _ _) as [|b l] eqn:E.
  - simpl. split; reflexivity.
  - destruct (rankRouteBranches (b :: l)) as [|y r] eqn:R.
    + apply rank_nil in R. discriminate R.
    + simpl. split; intro H; discriminate H.
Qed.

(** A route added at the end of a table changes nothing for the locations
    that its pattern does not match. *)
Lemma matchRoutes_app_unmatched {C} (t : list (string * C)) p c loc :
  matchPath p (pathnameOf loc) = false ->
  matchRoutes (t ++ [(p, c)]) loc = matchRoutes t loc.
Proof.
  intro H. unfold matchRoutes. rewrite !find_rank, branchesFrom_app, filter_app.
  replace (filter _ (branchesFrom (0 + length t) [(p, c)])) with (@nil (Branch C));
    [now rewrite app_nil_r|].
  simpl. unfold matchPath in H.
  destruct (parsePattern p); simpl; [now rewrite H|reflexivity].
Qed.

(** A route added at the end of a table takes the locations that its
    pattern matches and that no route matched before. *)
Lemma matchRoutes_app_new {C} (t : list (string * C)) p c loc :
  matchRoutes t loc = None ->
  matchPath p (pathnameOf loc) = true ->
  matchRoutes (t ++ [(p, c)]) loc = Some (length t, c).
Proof.
  intros Hn H. apply matchRoutes_None in Hn.
  unfold matchRoutes. rewrite find_rank, branchesFrom_app, filter_app, Hn.
  simpl. unfold matchPath in H.
  destruct (parsePattern p); [|discriminate]. simpl. now rewrite H.
Qed.

(** ** Click events *)

Lemma flat_map_nil_inv {A B} (f : A -> list B) (l : list A) (a : A) :
  flat_map f l = [] -> In a l -> f a = [].
Proof.
  induction l as [|x l IH]; simpl; [tauto|].
  intros H [->|Hin].
  - now apply app_eq_nil in H.
  - apply app_eq_nil in H. now apply IH.
Qed.

Lemma handlersTo_nil {W} (target : list nat) : forall forest : list (Dom W),
  flat_map allHandlers forest = [] -> handlersTo forest target = [].
Proof.
  induction target as [|i rest IH]; intros forest H; simpl; [reflexivity|].
  destruct (nth_error forest i) as [d|] eqn:E; [|reflexivity].
  apply nth_error_In in E.
  pose proof (flat_map_nil_inv _ _ _ H E) as Hd.
  destruct d as [s|t cl h children]; [reflexivity|].
  simpl in Hd. apply app_eq_nil in Hd. destruct Hd as [-> Hc].
  simpl. now apply IH.
Qed.

Lemma click_without_handlers {W} (forest : list (Dom W)) target (w : W) :
  flat_map allHandlers forest = [] -> click forest target w = w.
Proof.
  intro H. unfold click. now rewrite (handlersTo_nil target forest H).
Qed.

(** ** The claims of the specification *)

(** C1: rendering the root application at the path [/] mounts exactly one
    page component, the home page that the application shell registers at
    [/]; the router puts it where the route's element goes, and the button
    component is mounted inside the output of that page. *)
Theorem App_mounts_the_home_page {W} (k : nat) (w : W) :
  exists (app : Element W) table tree out,
    returns App app /\
    declaredRoutes app = Some table /\
    resolve table "/" = Some pagesHome /\
    render (9 + k) "/" root w = (Returned tree, w) /\
    pages tree = [Id.PagesHome] /\
    outputsOf Id.Routes tree = [[MComp Id.PagesHome out]] /\
    outputsOf Id.PagesHome tree = [out] /\
    flat_map instances out = [Id.Button].
Proof.
  do 4 eexists.
  split; [apply returns_ret|].
  split; [reflexivity|].
  split; [reflexivity|].
  split; [reflexivity|].
  repeat split.
Qed.

(** The one route of the application shell. *)
Lemma resolve_root_only {C} (c : C) (loc : string) :
  resolve [("/", c)] loc = if onlySlashes loc then Some c else None.
Proof.
  rewrite <- matchPattern_root.
  unfold resolve, matchRoutes.
  change (rankRouteBranches (branchesFrom 0 [("/", c)]))
    with [mkBranch [] (computeScore []) 0 c].
  unfold find. cbn [segments].
  destruct (matchPattern [] (pathnameOf loc)); reflexivity.
Qed.

Lemma bind_ret {W A B} (a : A) (k : A -> Eff W B) : bind (ret a) k = k a.
Proof. reflexivity. Qed.

Lemma mapM_one {W A B} (f : A -> Eff W B) (a : A) :
  mapM f [a] = (b <- f a ;; bs <- ret [] ;; ret (b :: bs)).
Proof. reflexivity. Qed.

Lemma render_component {W} (n : nat) (loc : string) (c : Id.t)
  (props : Props W (Element W)) (children : list (Element W)) :
  render (S n) loc (Elem (Component c) props children)
  = (out <- invoke c props children loc ;;
     ms <- mapM (render n loc) out ;;
     ret (MComp c ms)).
Proof. reflexivity. Qed.

Lemma invoke_Routes_root {W} (props : Props W (Element W)) (e : Element W)
  (loc : string) :
  invoke Id.Routes props [Elem (Component Id.Route) (routeProps "/" e) []] loc
  = ret (if onlySlashes loc then [e] else []).
Proof.
  cbn [invoke createRoutesFromChildren option_map routeProps].
  rewrite resolve_root_only. destruct (onlySlashes loc); reflexivity.
Qed.

(** Rendering the application comes down to rendering what its routes
    resolve to. *)
Lemma render_root_routes {W} (loc : string) (n : nat) (w : W) :
  render (S (S (S n))) loc root w
  = match mapM (render n loc)
            (if onlySlashes loc then [pagesHome] else []) w with
    | (Returned ms, w') =>
        (Returned
           (MComp Id.App [MComp Id.BrowserRouter [MComp Id.Routes ms]]), w')
    | (Thrown msg, w') => (Thrown msg, w')
    | (OutOfFuel, w') => (OutOfFuel, w')
    end.
Proof.
  unfold root.
  rewrite render_component. cbn [invoke]. unfold App.
  rewrite !bind_ret, mapM_one.
  rewrite render_component. cbn [invoke]. rewrite !bind_ret, mapM_one.
  rewrite render_component, invoke_Routes_root, bind_ret.
  unfold bind, pagesHome.
  destruct (mapM (render n loc) _ w) as [[ms|msg|] w']; reflexivity.
Qed.

(** At a location made of slashes the application renders as it does at
    [/]. *)
Lemma render_root_matched {W} (loc : string) (k : nat) (w : W) :
  onlySlashes loc = true ->
  render (9 + k) loc root w = render (9 + k) "/" root w.
Proof.
  intro H. change (9 + k) with (S (S (S (6 + k)))).
  rewrite !render_root_routes, H. reflexivity.
Qed.

(** At any other location the router finds no route: the shell mounts the
    router and nothing inside it. *)
Lemma render_root_elsewhere {W} (loc : string) (k : nat) (w : W) :
  onlySlashes loc = false ->
  render (3 + k) loc root w =
  (Returned (MComp Id.App [MComp Id.BrowserRouter [MComp Id.Routes []]]), w).
Proof.
  intro H. change (3 + k) with (S (S (S k))).
  rewrite render_root_routes, H. reflexivity.
Qed.

(** C2, as stated, fails for the home page of app/routes/home.tsx: its
    markup has no heading element. *)
Lemma route_home_markup_has_no_heading : ~ homeMarkup (@RouteHome.Home unit).
Proof.
  intros (e & He & Hh & _). specialize (He tt).
  unfold RouteHome.Home, ret in He. inversion He; subst e.
  apply Hh. reflexivity.
Qed.

(** C2, amended: the markup returned by the home page of src/pages/Home.tsx,
    the page the application shell mounts, contains a heading element, the
    text "Replace this with your own content." and exactly one button, whose
    label is "Click me"; the markup returned by the home page of
    app/routes/home.tsx contains that text and exactly one such button, and
    no heading element. *)
Theorem home_markup_contents {W} :
  homeMarkup (@Pages.Home W) /\
  exists e : Element W,
    returns RouteHome.Home e /\
    headings e = [] /\
    In "Replace this with your own content." (texts e) /\
    buttons e = [(noProps, [Text "Click me"])].
Proof.
  split.
  - eexists. split; [apply returns_ret|].
    split; [discriminate|].
    split; [simpl; tauto|].
    eexists. reflexivity.
  - eexists. split; [apply returns_ret|].
    split; [reflexivity|].
    split; [simpl; tauto|reflexivity].
Qed.

(** C3, as stated, fails: a route appended to a table is reached from
    paths other than its own.  With [/about] appended, [/About] and [/about/]
    resolve through the new entry; with [/users/:id] appended, so does
    [/users/42]. *)
Lemma appended_route_serves_other_paths :
  resolve (@nil (string * Id.t)) "/about" = None /\
  "/About" <> "/about" /\
  matchRoutes ([] ++ [("/about", Id.RoutesHome)]) "/About"
  = Some (length (@nil (string * Id.t)), Id.RoutesHome) /\
  "/about/" <> "/about" /\
  matchRoutes ([] ++ [("/about", Id.RoutesHome)]) "/about/"
  = Some (length (@nil (string * Id.t)), Id.RoutesHome) /\
  resolve (@nil (string * Id.t)) "/users/:id" = None /\
  "/users/42" <> "/users/:id" /\
  matchRoutes ([] ++ [("/users/:id", Id.RoutesHome)]) "/users/42"
  = Some (length (@nil (string * Id.t)), Id.RoutesHome).
Proof.
  repeat split; discriminate.
Qed.

(** C3, amended: for a route table [t] and a path [p], all written with
    static and dynamic segments, where [p] starts with a slash and no entry
    of [t] matches it: in [t] with the entry [(p, c)] appended, [p] resolves
    to [c], through the new entry; a location resolves through the new entry
    only if the pattern [p] matches it; and every location that [p] does not
    match resolves as it did in [t]. *)
Theorem appended_route_serves_its_pattern {C} (t : list (string * C))
  (p : string) (c : C) :
  Forall (fun e => supported (fst e) = true) t ->
  supported p = true ->
  startsWithSlash p = true ->
  resolve t p = None ->
  resolve (t ++ [(p, c)]) p = Some c /\
  matchRoutes (t ++ [(p, c)]) p = Some (length t, c) /\
  (forall q x, matchRoutes (t ++ [(p, c)]) q = Some (length t, x) ->
               matchPath p (pathnameOf q) = true) /\
  (forall q, matchPath p (pathnameOf q) = false ->
             matchRoutes (t ++ [(p, c)]) q = matchRoutes t q /\
             resolve (t ++ [(p, c)]) q = resolve t q).
Proof.
  intros _ Hs Ha Hn. apply resolve_None in Hn.
  pose proof (matchRoutes_app_new t p c p Hn (matchPath_self p Hs Ha)) as Hp.
  split; [unfold resolve; now rewrite Hp|].
  split; [exact Hp|].
  split.
  - intros q x H.
    destruct (matchPath p (pathnameOf q)) eqn:E; [reflexivity|].
    rewrite (matchRoutes_app_unmatched t p c q E) in H.
    apply matchRoutes_bound in H. lia.
  - intros q E. pose proof (matchRoutes_app_unmatched t p c q E) as H.
    split; [exact H|]. unfold resolve. now rewrite H.
Qed.

(** The about page appended to the table of the home page. *)
Lemma appended_route_serves_its_pattern_witness :
  Forall (fun e : string * Id.t => supported (fst e) = true)
         [("/", Id.PagesHome)] /\
  supported "/about" = true /\
  startsWithSlash "/about" = true /\
  resolve [("/", Id.PagesHome)] "/about" = None /\
  (resolve ([("/", Id.PagesHome)] ++ [("/about", Id.RoutesHome)]) "/about"
   = Some Id.RoutesHome /\
   matchRoutes ([("/", Id.PagesHome)] ++ [("/about", Id.RoutesHome)]) "/about"
   = Some (length [("/", Id.PagesHome)], Id.RoutesHome) /\
   (forall q x,
      matchRoutes ([("/", Id.PagesHome)] ++ [("/about", Id.RoutesHome)]) q
      = Some (length [("/", Id.PagesHome)], x) ->
      matchPath "/about" (pathnameOf q) = true) /\
   (forall q, matchPath "/about" (pathnameOf q) = false ->
      matchRoutes ([("/", Id.PagesHome)] ++ [("/about", Id.RoutesHome)]) q
      = matchRoutes [("/", Id.PagesHome)] q /\
      resolve ([("/", Id.PagesHome)] ++ [("/about", Id.RoutesHome)]) q
      = resolve [("/", Id.PagesHome)] q)).
Proof.
  assert (Ht : Forall (fun e : string * Id.t => supported (fst e) = true)
                      [("/", Id.PagesHome)])
    by (repeat constructor).
  split; [exact Ht|].
  split; [reflexivity|]. split; [reflexivity|]. split; [reflexivity|].
  apply (appended_route_serves_its_pattern [("/", Id.PagesHome)] "/about"
           Id.RoutesHome Ht); reflexivity.
Defined.

(** C4: the route tables of the repository are constants: in every world
    app/routes.ts evaluates to the same configuration, of one entry, which
    associates the path [/] with the home page of app/routes/home.tsx; and
    the table the application shell declares has one entry, from [/] to its
    home page. *)
Theorem route_table_is_static {W} :
  exists config (app : Element W),
    returns (@RouteConfig.routes W) config /\
    length config = 1 /\
    RouteConfig.linkRoutes (RouteConfig.flattenRoutes config)
    = Some [("/", Id.RoutesHome)] /\
    returns App app /\
    declaredRoutes app = Some [("/", pagesHome)].
Proof.
  do 2 eexists.
  split; [apply returns_ret|].
  split; [reflexivity|].
  split; [reflexivity|].
  split; [apply returns_ret|reflexivity].
Qed.

(** C5: the button of the home page carries no click handler, and a click
    delivered to it, or to any other node of the rendered page, leaves the
    state of the application as it was.  This holds for the home page of
    src/pages/Home.tsx, for that of app/routes/home.tsx, and for the whole
    application rendered at [/]. *)
Theorem click_changes_nothing {W} (loc : string) (k : nat) (w : W) :
  (exists (e : Element W) tree,
     returns Pages.Home e /\
     map (fun b : Props W (Element W) * list (Element W) => onClick (fst b))
         (buttons e) = [None] /\
     render (6 + k) loc pagesHome w = (Returned tree, w) /\
     nodeAt (toDom tree) [0; 0; 2]
     = Some (DElem "button" None None [DText "Click me"]) /\
     forall target w', click (toDom tree) target w' = w') /\
  (exists (e : Element W) tree,
     returns RouteHome.Home e /\
     map (fun b : Props W (Element W) * list (Element W) => onClick (fst b))
         (buttons e) = [None] /\
     render (6 + k) loc routeHome w = (Returned tree, w) /\
     nodeAt (toDom tree) [0; 1]
     = Some (DElem "button" None None [DText "Click me"]) /\
     forall target w', click (toDom tree) target w' = w') /\
  (exists tree,
     render (9 + k) "/" root w = (Returned tree, w) /\
     nodeAt (toDom tree) [0; 0; 2]
     = Some (DElem "button" None None [DText "Click me"]) /\
     forall target w', click (toDom tree) target w' = w').
Proof.
  repeat split.
  - do 2 eexists. split; [apply returns_ret|].
    split; [reflexivity|]. split; [reflexivity|]. split; [reflexivity|].
    intros target w'. now apply click_without_handlers.
  - do 2 eexists. split; [apply returns_ret|].
    split; [reflexivity|]. split; [reflexivity|]. split; [reflexivity|].
    intros target w'. now apply click_without_handlers.
  - eexists. split; [reflexivity|]. split; [reflexivity|].
    intros target w'. now apply click_without_handlers.
Qed.

(** C6: the home page components take no input and are pure: in any two
    worlds an invocation returns the same markup, two invocations in a row
    return twice that markup, and every invocation leaves the world as it
    found it. *)
Theorem Home_is_pure {W} :
  (exists e : Element W,
     returns Pages.Home e /\
     returns (a <- Pages.Home ;; b <- Pages.Home ;; ret (a, b)) (e, e)) /\
  (exists e : Element W,
     returns RouteHome.Home e /\
     returns (a <- RouteHome.Home ;; b <- RouteHome.Home ;; ret (a, b)) (e, e)) /\
  (forall w1 w2 : W,
     fst (Pages.Home w1) = fst (Pages.Home w2) /\
     fst (RouteHome.Home w1) = fst (RouteHome.Home w2)) /\
  (forall w : W,
     snd (@Pages.Home W w) = w /\ snd (@RouteHome.Home W w) = w).
Proof.
  split; [|split; [|split]].
  - eexists. split; [apply returns_ret|].
    apply (returns_bind _ _ _ _ (returns_ret _)).
    apply (returns_bind _ _ _ _ (returns_ret _)).
    apply returns_ret.
  - eexists. split; [apply returns_ret|].
    apply (returns_bind _ _ _ _ (returns_ret _)).
    apply (returns_bind _ _ _ _ (returns_ret _)).
    apply returns_ret.
  - intros w1 w2. split; reflexivity.
  - intro w. split; reflexivity.
Qed.

(** C7: the authored operations are total and never fail: in every world
    the application shell, both home pages, the meta function (for every
    argument) and the construction of the route table return a value and
    leave the world untouched; and rendering the application, at any
    location, returns a mounted tree in the same way. *)
Theorem authored_operations_never_fail {W} (MetaArgs : Type) (args : MetaArgs)
  (loc : string) (k : nat) :
  (exists e : Element W, returns App e) /\
  (exists e : Element W, returns Pages.Home e) /\
  (exists e : Element W, returns RouteHome.Home e) /\
  (exists ds, returns (@RouteHome.meta W MetaArgs args) ds) /\
  (exists config table,
     returns (@RouteConfig.routes W) config /\
     RouteConfig.linkRoutes (RouteConfig.flattenRoutes config) = Some table) /\
  (exists tree : Mounted W, returns (render (9 + k) loc root) tree).
Proof.
  repeat split; try (eexists; apply returns_ret).
  - do 2 eexists. split; [apply returns_ret|reflexivity].
  - destruct (onlySlashes loc) eqn:E.
    + eexists. intro w. rewrite (render_root_matched loc k w E). reflexivity.
    + eexists. intro w. apply (render_root_elsewhere loc (6 + k) w E).
Qed.

(** C8, as stated, fails: the location [//] is another path than [/], and
    rendering the application there mounts the home page. *)
Lemma double_slash_mounts_the_home_page :
  "//" <> "/" /\
  exists tree,
    render 9 "//" (@root unit) tt = (Returned tree, tt) /\
    pages tree = [Id.PagesHome].
Proof.
  split; [discriminate|]. eexists. split; reflexivity.
Qed.

(** C8, amended: the one route of the application shell, like the one of
    app/routes.ts, matches the locations made of slashes only ([/], [//],
    ...) and no other, there being no catch-all or not-found entry.  At a
    location with any other character no route matches and rendering the
    application mounts no page component, the router's output being empty; at
    a location made of slashes the home page is mounted. *)
Theorem other_paths_mount_no_page {W} (loc : string) (k : nat) (w : W) :
  exists (app : Element W) table config linked tree,
    returns App app /\
    declaredRoutes app = Some table /\
    resolve table loc = (if onlySlashes loc then Some pagesHome else None) /\
    returns (@RouteConfig.routes W) config /\
    RouteConfig.linkRoutes (RouteConfig.flattenRoutes config) = Some linked /\
    resolve linked loc
    = (if onlySlashes loc then Some Id.RoutesHome else None) /\
    render (9 + k) loc root w = (Returned tree, w) /\
    pages tree = (if onlySlashes loc then [Id.PagesHome] else []) /\
    (onlySlashes loc = false -> outputsOf Id.Routes tree = [[]]).
Proof.
  destruct (onlySlashes loc) eqn:E; do 5 eexists;
    (split; [apply returns_ret|]);
    (split; [reflexivity|]);
    (split; [rewrite resolve_root_only, E; reflexivity|]);
    (split; [apply returns_ret|]);
    (split; [reflexivity|]);
    (split; [rewrite resolve_root_only, E; reflexivity|]).
  - split; [rewrite (render_root_matched loc k w E); reflexivity|].
    split; [reflexivity|discriminate].
  - split; [apply (render_root_elsewhere loc (6 + k) w E)|].
    split; reflexivity.
Qed.

(** C9: for every argument the meta function of the home route returns two
    entries, in this order: the title "My Easel App", then the description
    with the content "Welcome to My Easel App!". *)
Theorem meta_returns_title_then_description {W} (MetaArgs : Type)
  (args : MetaArgs) :
  exists first second,
    returns (@RouteHome.meta W MetaArgs args) [first; second] /\
    first = [("title", "My Easel App")] /\
    second = [("name", "description"); ("content", "Welcome to My Easel App!")] /\
    field "title" first = Some "My Easel App" /\
    field "name" second = Some "description" /\
    field "content" second = Some "Welcome to My Easel App!".
Proof.
  do 2 eexists. split; [apply returns_ret|].
  repeat split.
Qed.

(** C10: the markup of the home page of src/pages/Home.tsx has one heading,
    whose text is "My Easel App", the title that the meta function of the
    home route declares. *)
Theorem heading_matches_meta_title {W} (MetaArgs : Type) (args : MetaArgs) :
  exists (e : Element W) ds title,
    returns Pages.Home e /\
    returns (@RouteHome.meta W MetaArgs args) ds /\
    titleOf ds = Some title /\
    map textContent (headings e) = [title] /\
    title = "My Easel App".
Proof.
  do 3 eexists. split; [apply returns_ret|].
  split; [apply returns_ret|].
  split; [reflexivity|].
  split; reflexivity.
Qed.

(** ** Further properties of the code *)

Lemma length_append (a b : string) :
  String.length (a ++ b) = String.length a + String.length b.
Proof. induction a as [|c a IH]; simpl; [reflexivity|now rewrite IH]. Qed.

Lemma append_cancel_r (s : string) : forall a b : string,
  a ++ s = b ++ s -> a = b.
Proof.
  induction a as [|c a IH]; intros [|d b] H; simpl in H.
  - reflexivity.
  - apply (f_equal String.length) in H. simpl in H.
    rewrite length_append in H. lia.
  - apply (f_equal String.length) in H. simpl in H.
    rewrite length_append in H. lia.
  - injection H as -> H. f_equal. now apply IH.
Qed.

Lemma flattenRoutes_route (config : list RouteConfig.RouteConfigEntry)
  (seg file : string) :
  RouteConfig.flattenRoutes (config ++ [Guide.route seg file])
  = (RouteConfig.flattenRoutes config
     ++ [(RouteConfig.fullPath "/" false (Some seg), file)])%list.
Proof.
  unfold RouteConfig.flattenRoutes. rewrite flat_map_app. reflexivity.
Qed.

(** X1: the application shell puts nothing of its own around the page.  At
    every location the mounted tree is the shell, the router and the routes
    around the mounted home page when the location is made of slashes ([/],
    [//], ...), and around nothing otherwise; so the document shown is the
    home page's document there and is empty everywhere else. *)
Theorem shell_wraps_the_page_only {W} (loc : string) (k : nat) (w : W) :
  exists tree page,
    render (9 + k) loc root w = (Returned tree, w) /\
    render (6 + k) loc pagesHome w = (Returned page, w) /\
    tree = MComp Id.App
             [MComp Id.BrowserRouter
                [MComp Id.Routes
                   (if onlySlashes loc then [page] else [])]] /\
    toDom tree = (if onlySlashes loc then toDom page else []).
Proof.
  destruct (onlySlashes loc) eqn:E.
  - do 2 eexists.
    split; [rewrite (render_root_matched loc k w E); reflexivity|].
    repeat split.
  - do 2 eexists.
    split; [apply (render_root_elsewhere loc (6 + k) w E)|].
    repeat split.
Qed.

(** X2: the route configuration of app/routes.ts and the routes of the
    application shell accept the same locations, those made of slashes: a
    location resolves in the one exactly when it resolves in the other; the
    configuration then gives the home page of app/routes/home.tsx, the shell
    the home page of src/pages/Home.tsx. *)
Theorem route_tables_accept_the_same_locations {W} (loc : string) :
  exists config linked (app : Element W) table,
    returns (@RouteConfig.routes W) config /\
    RouteConfig.linkRoutes (RouteConfig.flattenRoutes config) = Some linked /\
    returns App app /\
    declaredRoutes app = Some table /\
    (resolve linked loc = None <-> resolve table loc = None) /\
    (resolve linked loc = Some Id.RoutesHome <-> onlySlashes loc = true) /\
    (resolve table loc = Some pagesHome <-> onlySlashes loc = true) /\
    (forall c, resolve linked loc = Some c -> c = Id.RoutesHome) /\
    (forall e, resolve table loc = Some e -> e = pagesHome).
Proof.
  do 4 eexists.
  split; [apply returns_ret|].
  split; [reflexivity|].
  split; [apply returns_ret|].
  split; [reflexivity|].
  rewrite !resolve_root_only.
  destruct (onlySlashes loc); repeat split; try congruence;
    intros e [= <-]; reflexivity.
Qed.

(** X3: registering a route the way the guide does, by adding
    [route(seg, file)] at the end of the configuration, where the paths of
    the configuration and the path [p] of the new route are written with
    static and dynamic segments.  Every location that the pattern [p] does
    not match resolves to what it resolved to before; and a location that did
    not resolve before and that [p] matches resolves to the new module. *)
Theorem registering_a_route (config : list RouteConfig.RouteConfigEntry)
  (seg file p : string) :
  RouteConfig.fullPath "/" false (Some seg) = p ->
  Forall (fun e => supported (fst e) = true)
         (RouteConfig.flattenRoutes config) ->
  supported p = true ->
  (forall q, matchPath p (pathnameOf q) = false ->
     resolve (RouteConfig.flattenRoutes (config ++ [Guide.route seg file])) q
     = resolve (RouteConfig.flattenRoutes config) q) /\
  (forall q, resolve (RouteConfig.flattenRoutes config) q = None ->
     matchPath p (pathnameOf q) = true ->
     resolve (RouteConfig.flattenRoutes (config ++ [Guide.route seg file])) q
     = Some file).
Proof.
  intros Hp _ _. rewrite flattenRoutes_route, Hp. split.
  - intros q E. unfold resolve. now rewrite (matchRoutes_app_unmatched _ p file q E).
  - intros q Hn E. apply resolve_None in Hn.
    unfold resolve. now rewrite (matchRoutes_app_new _ p file q Hn E).
Qed.

(** The guide's product page, [route("products/:id", file)], added to the
    home route. *)
Lemma registering_a_route_witness :
  RouteConfig.fullPath "/" false (Some "products/:id") = "/products/:id" /\
  Forall (fun e => supported (fst e) = true)
         (RouteConfig.flattenRoutes [RouteConfig.index "./routes/home.tsx"]) /\
  supported "/products/:id" = true /\
  resolve (RouteConfig.flattenRoutes
             ([RouteConfig.index "./routes/home.tsx"]
              ++ [Guide.route "products/:id" "./routes/product-detail.tsx"]))
          "/products/7" = Some "./routes/product-detail.tsx" /\
  resolve (RouteConfig.flattenRoutes
             ([RouteConfig.index "./routes/home.tsx"]
              ++ [Guide.route "products/:id" "./routes/product-detail.tsx"]))
          "/" = Some "./routes/home.tsx".
Proof.
  assert (Hc : Forall (fun e => supported (fst e) = true)
                 (RouteConfig.flattenRoutes
                    [RouteConfig.index "./routes/home.tsx"]))
    by (repeat constructor).
  split; [reflexivity|]. split; [exact Hc|]. split; [reflexivity|].
  destruct (registering_a_route [RouteConfig.index "./routes/home.tsx"]
              "products/:id" "./routes/product-detail.tsx" "/products/:id"
              eq_refl Hc eq_refl) as [Hsame Hnew].
  split.
  - apply Hnew; reflexivity.
  - rewrite Hsame; reflexivity.
Defined.

(** X4: the title of the guide's user page identifies the user: when the
    meta function returns the same descriptors for two parameter records,
    they carry the same id. *)
Theorem user_title_identifies_the_user {W} (w : W) (p q : Guide.Params) :
  fst (Guide.meta p w) = fst (Guide.meta q w) -> Guide.id p = Guide.id q.
Proof.
  unfold Guide.meta, ret. simpl. intros [= H].
  now apply append_cancel_r in H.
Qed.

(** Two requests for the page of user 42. *)
Lemma user_title_identifies_the_user_witness :
  fst (Guide.meta (Guide.mkParams "42") tt)
  = fst (Guide.meta (Guide.mkParams "42") tt) /\
  Guide.id (Guide.mkParams "42") = Guide.id (Guide.mkParams "42").
Proof.
  split; [reflexivity|].
  apply (user_title_identifies_the_user tt (Guide.mkParams "42")
           (Guide.mkParams "42")).
  reflexivity.
Defined.
